(** * ig_unfollow: the Instagram non-followers checker

    A shallow embedding of [src/ig_unfollow/unfollow_check.py] and the
    properties of its extraction, normalisation and difference logic.

    Conventions of the model.
    - A Python [str] is a [string]: a sequence of characters, each one a
      code point below 256 (the Latin-1 range, which contains ASCII and is
      closed under [str.lower]).  The tables [isspace] and [lower_char] are
      those of CPython for that range.
    - A parsed JSON value is a [json]; a JSON object is an association list
      in insertion order, which is how a Python [dict] enumerates.
    - A Python [set] of strings is a [gset string].
    - The file system maps a path to the text of the file stored there. *)

From Stdlib Require Import Ascii String NArith List Sorted Permutation Lia.
From stdpp Require Import base decidable option list sets gmap strings sorting.

Local Open Scope string_scope.

(** ** Python's built-in string operations *)

Module PyStr.

(** [c.isspace()] for a code point below 256: TAB..CR, FS..US, SPACE,
    NEL (0x85) and NBSP (0xA0). *)
Definition isspace (c : ascii) : bool :=
  let n := N_of_ascii c in
  ((9 <=? n) && (n <=? 13) || (28 <=? n) && (n <=? 32)
   || (n =? 133) || (n =? 160))%N.

(** [c.lower()] for a code point below 256: A..Z and the Latin-1 capitals
    0xC0..0xDE (the multiplication sign 0xD7 apart) move up by 32. *)
Definition lower_char (c : ascii) : ascii :=
  let n := N_of_ascii c in
  if ((65 <=? n) && (n <=? 90)
      || (192 <=? n) && (n <=? 222) && negb (n =? 215))%N
  then ascii_of_N (n + 32) else c.

(** [s.lower()] *)
Fixpoint lower (s : string) : string :=
  match s with
  | "" => ""
  | String c s' => String (lower_char c) (lower s')
  end.

(** [c in chars] for a character [c] *)
Fixpoint contains (chars : string) (c : ascii) : bool :=
  match chars with
  | "" => false
  | String d chars' => Ascii.eqb c d || contains chars' c
  end.

(** The common core of [lstrip]: drop the longest prefix of characters
    satisfying [p]. *)
Fixpoint lstrip_with (p : ascii -> bool) (s : string) : string :=
  match s with
  | "" => ""
  | String c s' => if p c then lstrip_with p s' else s
  end.

(** Drop the longest suffix of characters satisfying [p]. *)
Fixpoint rstrip_with (p : ascii -> bool) (s : string) : string :=
  match s with
  | "" => ""
  | String c s' =>
      match rstrip_with p s' with
      | "" => if p c then "" else String c ""
      | r => String c r
      end
  end.

(** [s.strip()]: without an argument, whitespace goes from both ends. *)
Definition strip (s : string) : string :=
  rstrip_with isspace (lstrip_with isspace s).

(** [s.lstrip(chars)]: every leading character that occurs in [chars]. *)
Definition lstrip (chars : string) (s : string) : string :=
  lstrip_with (contains chars) s.

(** Truth value of a string: non-empty. *)
Definition truthy (s : string) : bool :=
  match s with "" => false | _ => true end.

End PyStr.

(** ** [_normalize_username] *)

Definition _normalize_username (username : string) : string :=
  PyStr.lower (PyStr.lstrip "@" (PyStr.strip username)).

(** ** Parsed JSON documents *)

Set Warnings "-register-all".

(** What [json.loads] returns: [None], a [bool], an [int], a [float] (by
    its binary64 bit pattern), a [str], a [list] or a [dict] with string
    keys.  A [dict] enumerates its entries in insertion order, so it is an
    association list; its keys are pairwise distinct. *)
Inductive json : Type :=
| JNull
| JBool (b : bool)
| JInt (n : Z)
| JFloat (bits : N)
| JStr (s : string)
| JList (items : list json)
| JDict (entries : list (string * json)).

Abbreviation dict := (list (string * json)).

(** [d.get(key)]: the value stored under [key], [None] when there is none. *)
Fixpoint dict_get (d : dict) (key : string) : json :=
  match d with
  | [] => JNull
  | (k, v) :: d' => if String.eqb k key then v else dict_get d' key
  end.

(** [d.values()], in enumeration order. *)
Definition dict_values (d : dict) : list json := map snd d.

(** [isinstance(item, dict)] *)
Definition is_dict (item : json) : bool :=
  match item with JDict _ => true | _ => false end.

(** [isinstance(value, list)] *)
Definition is_list (value : json) : bool :=
  match value with JList _ => true | _ => false end.

(** [[item for item in items if isinstance(item, dict)]]: the elements that
    are dicts, each one as the dict it is. *)
Fixpoint only_dicts (items : list json) : list dict :=
  match items with
  | [] => []
  | JDict d :: items' => d :: only_dicts items'
  | _ :: items' => only_dicts items'
  end.

(** ** [_extract_candidates] *)

Definition common_keys : list string :=
  ["relationships_following"; "relationships_followers";
   "following"; "followers"].

(** The loop [for key in common_keys]: [Some] is its [return]. *)
Fixpoint probe_keys (keys : list string) (data : dict) : option (list dict) :=
  match keys with
  | [] => None
  | key :: keys' =>
      match dict_get data key with
      | JList value => Some (only_dicts value)
      | _ => probe_keys keys' data
      end
  end.

(** The loop [for value in data.values()]: [Some] is its [return]. *)
Fixpoint first_list_value (values : list json) : option (list dict) :=
  match values with
  | [] => None
  | JList value :: _ => Some (only_dicts value)
  | _ :: values' => first_list_value values'
  end.

Definition _extract_candidates (data : json) : list dict :=
  match data with
  | JList items => only_dicts items
  | JDict d =>
      match probe_keys common_keys d with
      | Some found => found
      | None =>
          match first_list_value (dict_values d) with
          | Some found => found
          | None => []
          end
      end
  | _ => []
  end.

(** ** [load_usernames] *)

(** [usernames.add(x)] *)
Definition set_add (x : string) (usernames : gset string) : gset string :=
  {[ x ]} ∪ usernames.

(** [isinstance(value, str) and value.strip()] *)
Definition accepted (value : json) : option string :=
  match value with
  | JStr s => if PyStr.truthy (PyStr.strip s) then Some s else None
  | _ => None
  end.

(** The nested [if]s on [string_list_data]: the string that reaches
    [usernames.add] followed by [continue], if any. *)
Definition first_value (string_list_data : json) : option string :=
  match string_list_data with
  | JList (first :: _) =>
      match first with
      | JDict d => accepted (dict_get d "value")
      | _ => None
      end
  | _ => None
  end.

(** The loop [for key in ("username", "value")] with its [break]. *)
Fixpoint flat_fields (keys : list string) (item : dict)
    (usernames : gset string) : gset string :=
  match keys with
  | [] => usernames
  | key :: keys' =>
      match accepted (dict_get item key) with
      | Some value => set_add (_normalize_username value) usernames
      | None => flat_fields keys' item usernames
      end
  end.

(** One iteration of [for item in candidates]. *)
Definition loop_body (usernames : gset string) (item : dict) : gset string :=
  match first_value (dict_get item "string_list_data") with
  | Some value => set_add (_normalize_username value) usernames
  | None => flat_fields ["username"; "value"] item usernames
  end.

(** The body of [load_usernames] from the parsed document on. *)
Definition usernames_of (data : json) : gset string :=
  fold_left loop_body (_extract_candidates data) ∅.

(** ** The difference *)

(** [sorted(xs)] on strings: ascending in the code point order
    [String.le], which is how Python compares [str]. *)
Definition sorted (xs : list string) : list string :=
  merge_sort String.le xs.

(** [sorted(following - followers)] *)
Definition not_following_back (following followers : gset string)
    : list string :=
  sorted (elements (following ∖ followers)).

(** ** Files, output and [main] *)

Definition DEFAULT_FOLLOWERS_FILE : string := "followers.json".
Definition DEFAULT_FOLLOWING_FILE : string := "following.json".
Definition OUTPUT_FILE : string := "not_following_back.csv".

Inductive exn : Type :=
| SystemExit (msg : string)
| FileNotFoundError (path : string)
| JSONDecodeError.

Inductive outcome (A : Type) : Type :=
| Return (a : A)
| Raise (e : exn).
Arguments Return {A} a.
Arguments Raise {A} e.

(** The status the interpreter exits with. *)
Definition exit_code {A} (o : outcome A) : Z :=
  match o with
  | Return _ => 0
  | Raise _ => 1
  end.

(** One call of [print] in [main], by the f-string it prints. *)
Inductive printed : Type :=
| PFollowing (n : nat)           (* "Following: {n}" *)
| PFollowers (n : nat)           (* "Followers: {n}" *)
| PNotFollowingBack (n : nat)    (* "Not following you back: {n}\n" *)
| PUsername (username : string)  (* "{username}" *)
| PSaved (file : string).        (* "\nSaved ... {file}" *)

Record world : Type := World {
  files : gmap string string;
  stdout : list printed
}.

(** [path.exists()] *)
Definition exists_ (w : world) (path : string) : bool :=
  bool_decide (is_Some (files w !! path)).

Definition print (p : printed) (w : world) : world :=
  World (files w) (stdout w ++ [p]).

Definition missing_message (file : string) : string :=
  "Missing " +:+ file +:+ ". Put it next to this script.".

Section Program.

(** The two library calls whose results the program passes on:
    [json.loads] ([None] where it raises) and the text that
    [csv.writer(f).writerow(row)] appends to [f]. *)
Variable json_loads : string -> option json.
Variable csv_writerow : list string -> string.

Definition load_usernames (w : world) (path : string)
    : outcome (gset string) :=
  match files w !! path with
  | None => Raise (FileNotFoundError path)
  | Some text =>
      match json_loads text with
      | None => Raise JSONDecodeError
      | Some data => Return (usernames_of data)
      end
  end.

(** The text [write_csv] leaves in the file. *)
Definition csv_text (usernames : list string) : string :=
  fold_left (fun text username => text +:+ csv_writerow [username])
            usernames (csv_writerow ["username"]).

Definition write_csv (path : string) (usernames : list string) (w : world)
    : world :=
  World (<[path := csv_text usernames]> (files w)) (stdout w).

Definition main (w : world) : outcome unit * world :=
  if negb (exists_ w DEFAULT_FOLLOWERS_FILE) then
    (Raise (SystemExit (missing_message DEFAULT_FOLLOWERS_FILE)), w)
  else if negb (exists_ w DEFAULT_FOLLOWING_FILE) then
    (Raise (SystemExit (missing_message DEFAULT_FOLLOWING_FILE)), w)
  else
    match load_usernames w DEFAULT_FOLLOWERS_FILE with
    | Raise e => (Raise e, w)
    | Return followers =>
        match load_usernames w DEFAULT_FOLLOWING_FILE with
        | Raise e => (Raise e, w)
        | Return following =>
            let rows := not_following_back following followers in
            let w := print (PFollowing (size following)) w in
            let w := print (PFollowers (size followers)) w in
            let w := print (PNotFollowingBack (length rows)) w in
            let w := fold_left (fun w u => print (PUsername u) w) rows w in
            let w := write_csv OUTPUT_FILE rows w in
            let w := print (PSaved OUTPUT_FILE) w in
            (Return tt, w)
        end
    end.

End Program.

(** ** Instances of the two library calls

    A reader for the fragment of JSON without escapes and fractions, and
    the row writer of the [excel] dialect.  They make the program
    executable on concrete files. *)

Module Sample.

Definition CR : ascii := ascii_of_nat 13.
Definition LF : ascii := ascii_of_nat 10.
Definition TAB : ascii := ascii_of_nat 9.
Definition QUOTE : ascii := ascii_of_nat 34.
Definition BACKSLASH : ascii := ascii_of_nat 92.

Definition is_ws (c : ascii) : bool :=
  Ascii.eqb c " " || Ascii.eqb c TAB || Ascii.eqb c LF || Ascii.eqb c CR.

Definition skip_ws (s : string) : string := PyStr.lstrip_with is_ws s.

(** [s] without the prefix [p], if it starts with [p]. *)
Fixpoint after (p s : string) : option string :=
  match p, s with
  | "", _ => Some s
  | String a p', String b s' => if Ascii.eqb a b then after p' s' else None
  | _, _ => None
  end.

(** The characters up to the closing quote, and what follows it. *)
Fixpoint string_body (s : string) : option (string * string) :=
  match s with
  | "" => None
  | String c s' =>
      if Ascii.eqb c QUOTE then Some ("", s')
      else if Ascii.eqb c BACKSLASH || (N_of_ascii c <? 32)%N then None
      else match string_body s' with
           | Some (body, rest) => Some (String c body, rest)
           | None => None
           end
  end.

Definition digit (c : ascii) : option N :=
  let n := N_of_ascii c in
  if ((48 <=? n) && (n <=? 57))%N then Some (n - 48)%N else None.

Fixpoint digits (acc : N) (s : string) : N * string :=
  match s with
  | "" => (acc, s)
  | String c s' =>
      match digit c with
      | Some d => digits (10 * acc + d)%N s'
      | None => (acc, s)
      end
  end.

(** An integer without sign; a leading zero stands alone. *)
Definition natural (s : string) : option (N * string) :=
  match s with
  | "" => None
  | String c s' =>
      match digit c with
      | None => None
      | Some 0%N => Some (0%N, s')
      | Some d => Some (digits d s')
      end
  end.

(** No fraction or exponent may follow an integer of the fragment. *)
Definition integer_ends (s : string) : bool :=
  match s with
  | "" => true
  | String c _ => negb (Ascii.eqb c "." || Ascii.eqb c "e" || Ascii.eqb c "E")
  end.

(** [d[k] = v] *)
Fixpoint dict_set (d : dict) (k : string) (v : json) : dict :=
  match d with
  | [] => [(k, v)]
  | (k', v') :: d' =>
      if String.eqb k' k then (k', v) :: d' else (k', v') :: dict_set d' k v
  end.

Fixpoint value (fuel : nat) (s : string) : option (json * string) :=
  match fuel with
  | O => None
  | S fuel' =>
      match skip_ws s with
      | "" => None
      | String c s' as t =>
          if Ascii.eqb c QUOTE then
            match string_body s' with
            | Some (body, rest) => Some (JStr body, rest)
            | None => None
            end
          else if Ascii.eqb c "[" then
            match skip_ws s' with
            | String "]" rest => Some (JList [], rest)
            | _ =>
                match elements fuel' [] s' with
                | Some (items, rest) => Some (JList items, rest)
                | None => None
                end
            end
          else if Ascii.eqb c "{" then
            match skip_ws s' with
            | String "}" rest => Some (JDict [], rest)
            | _ =>
                match members fuel' [] s' with
                | Some (entries, rest) => Some (JDict entries, rest)
                | None => None
                end
            end
          else if Ascii.eqb c "-" then
            match natural s' with
            | Some (n, rest) =>
                if integer_ends rest then Some (JInt (- Z.of_N n), rest)
                else None
            | None => None
            end
          else
            match after "null" t, after "true" t, after "false" t with
            | Some rest, _, _ => Some (JNull, rest)
            | _, Some rest, _ => Some (JBool true, rest)
            | _, _, Some rest => Some (JBool false, rest)
            | _, _, _ =>
                match natural t with
                | Some (n, rest) =>
                    if integer_ends rest then Some (JInt (Z.of_N n), rest)
                    else None
                | None => None
                end
            end
      end
  end
with elements (fuel : nat) (acc : list json) (s : string)
    : option (list json * string) :=
  match fuel with
  | O => None
  | S fuel' =>
      match value fuel' s with
      | None => None
      | Some (v, rest) =>
          match skip_ws rest with
          | String "," rest' => elements fuel' (acc ++ [v])%list rest'
          | String "]" rest' => Some ((acc ++ [v])%list, rest')
          | _ => None
          end
      end
  end
with members (fuel : nat) (acc : dict) (s : string)
    : option (dict * string) :=
  match fuel with
  | O => None
  | S fuel' =>
      match skip_ws s with
      | String c s' =>
          if Ascii.eqb c QUOTE then
            match string_body s' with
            | None => None
            | Some (k, rest) =>
                match skip_ws rest with
                | String ":" rest' =>
                    match value fuel' rest' with
                    | None => None
                    | Some (v, rest'') =>
                        match skip_ws rest'' with
                        | String "," r => members fuel' (dict_set acc k v) r
                        | String "}" r => Some (dict_set acc k v, r)
                        | _ => None
                        end
                    end
                | _ => None
                end
            end
          else None
      | "" => None
      end
  end.

(** [json.loads] on the fragment. *)
Definition loads (text : string) : option json :=
  match value (2 * String.length text + 2) text with
  | Some (v, rest) => if PyStr.truthy (skip_ws rest) then None else Some v
  | None => None
  end.

(** A field is quoted when it holds the delimiter, the quote character or
    a character of the line terminator; quotes inside are doubled. *)
Definition needs_quotes (c : ascii) : bool :=
  Ascii.eqb c "," || Ascii.eqb c QUOTE || Ascii.eqb c CR || Ascii.eqb c LF.

Fixpoint any_char (p : ascii -> bool) (s : string) : bool :=
  match s with
  | "" => false
  | String c s' => p c || any_char p s'
  end.

Fixpoint double_quotes (s : string) : string :=
  match s with
  | "" => ""
  | String c s' =>
      if Ascii.eqb c QUOTE then String c (String c (double_quotes s'))
      else String c (double_quotes s')
  end.

Definition quoted (s : string) : string :=
  String QUOTE (double_quotes s +:+ String QUOTE "").

Definition field (s : string) : string :=
  if any_char needs_quotes s then quoted s else s.

Fixpoint joined (fields : list string) : string :=
  match fields with
  | [] => ""
  | [f] => field f
  | f :: fields' => field f +:+ "," +:+ joined fields'
  end.

(** [writerow]: a row of one empty field is written quoted. *)
Definition writerow (row : list string) : string :=
  match row with
  | [""] => quoted ""
  | _ => joined row
  end +:+ String CR (String LF "").

(** Sample texts are written with apostrophes for the quote character. *)
Fixpoint text (s : string) : string :=
  match s with
  | "" => ""
  | String c s' => String (if Ascii.eqb c "'" then QUOTE else c) (text s')
  end.

Definition following_json : string :=
  text "[{'string_list_data':[{'value':'Alice'}]},{'string_list_data':[{'value':'bob'}]}]".

Definition followers_json : string :=
  text "[{'string_list_data':[{'value':'BOB'}]}]".

Definition following_doc : json :=
  JList [JDict [("string_list_data", JList [JDict [("value", JStr "Alice")]])];
         JDict [("string_list_data", JList [JDict [("value", JStr "bob")]])]].

Definition followers_doc : json :=
  JList [JDict [("string_list_data", JList [JDict [("value", JStr "BOB")]])]].

Definition sample_world : world :=
  World (<[DEFAULT_FOLLOWING_FILE := following_json]>
           (<[DEFAULT_FOLLOWERS_FILE := followers_json]> ∅)) [].

End Sample.

(** ** Vocabulary of the statements *)

Module Shape.

(** The first character of [s] satisfies [p]. *)
Definition head_is (p : ascii -> bool) (s : string) : bool :=
  match s with
  | "" => false
  | String c _ => p c
  end.

(** The last character of [s] satisfies [p]. *)
Fixpoint last_is (p : ascii -> bool) (s : string) : bool :=
  match s with
  | "" => false
  | String c "" => p c
  | String _ s' => last_is p s'
  end.

(** Every character of [s] satisfies [p]. *)
Fixpoint all_chars (p : ascii -> bool) (s : string) : bool :=
  match s with
  | "" => true
  | String c s' => p c && all_chars p s'
  end.

Definition is_at (c : ascii) : bool := PyStr.contains "@" c.

(** [n] times the character '@'. *)
Fixpoint at_run (n : nat) : string :=
  match n with
  | O => ""
  | S n' => String "@" (at_run n')
  end.

(** [s] is whitespace [ws1], then [n] times '@', then [t], then whitespace
    [ws2], where the part between the whitespace neither starts nor ends
    with whitespace and [t] does not start with '@'. *)
Definition splits (s ws1 : string) (n : nat) (t ws2 : string) : Prop :=
  s = ws1 +:+ (at_run n +:+ t) +:+ ws2 /\
  all_chars PyStr.isspace ws1 = true /\
  all_chars PyStr.isspace ws2 = true /\
  head_is PyStr.isspace (at_run n +:+ t) = false /\
  last_is PyStr.isspace (at_run n +:+ t) = false /\
  head_is is_at t = false.

(** Strip at most one leading '@'. *)
Definition strip_one_at (s : string) : string :=
  match s with
  | String c s' => if is_at c then s' else s
  | "" => ""
  end.

(** Normalisation in the words of the specification: trim, strip at most
    one leading '@', lowercase. *)
Definition normalize_spec (s : string) : string :=
  PyStr.lower (strip_one_at (PyStr.strip s)).

(** The field [key] of [d] is a string with non-empty trimmed content. *)
Definition text_field (d : dict) (key value : string) : Prop :=
  dict_get d key = JStr value /\ PyStr.strip value <> "".

(** The field [key] of the record is a non-empty list whose first element
    is a dict with the text field [value]. *)
Definition nested_value (item : dict) (key value : string) : Prop :=
  exists first rest,
    dict_get item key = JList (JDict first :: rest) /\
    text_field first "value" value.

(** The preferred path in the words of the specification: some field of
    the record holds a non-empty list of dicts, and the first of them has
    the text field [value]. *)
Definition nested_value_spec (item : dict) (value : string) : Prop :=
  exists key first rest,
    dict_get item key = JList (JDict first :: rest) /\
    Forall (fun x => is_dict x = true) rest /\
    text_field first "value" value.

End Shape.

(** ** Vocabulary of the further properties *)

(** No list is found by the extractor: the document is a dict without a
    list among its values, or neither a list nor a dict. *)
Definition unrecognised (data : json) : bool :=
  match data with
  | JList _ => false
  | JDict d => forallb (fun v => negb (is_list v)) (dict_values d)
  | _ => true
  end.

(** * Properties *)

(** ** Strings *)

Module PyStrFacts.
Import PyStr Shape.

Ltac each_char c := destruct c as [[] [] [] [] [] [] [] []]; vm_compute; reflexivity.

Lemma append_cons c s t : String c s +:+ t = String c (s +:+ t).
Proof. reflexivity. Qed.

Lemma append_nil t : "" +:+ t = t.
Proof. reflexivity. Qed.

Ltac norm := rewrite ?append_cons, ?append_nil in *; simpl in *.

Lemma isspace_lower_char c : isspace (lower_char c) = isspace c.
Proof. each_char c. Qed.

Lemma is_at_lower_char c : is_at (lower_char c) = is_at c.
Proof. each_char c. Qed.

Lemma lower_char_idem c : lower_char (lower_char c) = lower_char c.
Proof. each_char c. Qed.

Lemma is_at_not_space c : is_at c = true -> isspace c = false.
Proof. destruct c as [[] [] [] [] [] [] [] []]; vm_compute; congruence. Qed.

Lemma lower_idem s : lower (lower s) = lower s.
Proof. induction s as [|c s IH]; simpl; [|rewrite lower_char_idem, IH]; reflexivity. Qed.

Lemma length_lower s : String.length (lower s) = String.length s.
Proof. induction s as [|c s IH]; simpl; congruence. Qed.

Lemma head_is_lower p s :
  (forall c, p (lower_char c) = p c) -> head_is p (lower s) = head_is p s.
Proof. intros Hp. destruct s; simpl; auto. Qed.

Lemma last_is_lower p s :
  (forall c, p (lower_char c) = p c) -> last_is p (lower s) = last_is p s.
Proof.
  intros Hp. induction s as [|c s IH]; [reflexivity|].
  destruct s as [|d s]; simpl in *; auto.
Qed.

Section Strip.
Variable p : ascii -> bool.

Lemma lstrip_with_head s : head_is p s = false -> lstrip_with p s = s.
Proof. destruct s as [|c s]; simpl; [reflexivity|]. intros ->. reflexivity. Qed.

Lemma head_is_lstrip_with s : head_is p (lstrip_with p s) = false.
Proof.
  induction s as [|c s IH]; simpl; [reflexivity|].
  destruct (p c) eqn:Hc; simpl; auto.
Qed.

Lemma lstrip_with_app s : exists ws,
  all_chars p ws = true /\ s = ws +:+ lstrip_with p s.
Proof.
  induction s as [|c s (ws & Hws & Hs)]; simpl.
  - exists ""; auto.
  - destruct (p c) eqn:Hc.
    + exists (String c ws); norm. rewrite Hc, Hws, <- Hs. auto.
    + exists ""; auto.
Qed.

Lemma lstrip_with_all ws x :
  all_chars p ws = true -> lstrip_with p (ws +:+ x) = lstrip_with p x.
Proof.
  induction ws as [|c ws IH]; norm; [reflexivity|].
  intros [-> H]%andb_prop. auto.
Qed.

Lemma lstrip_with_blank ws : all_chars p ws = true -> lstrip_with p ws = "".
Proof.
  induction ws as [|c ws IH]; simpl; [reflexivity|].
  intros [-> H]%andb_prop. auto.
Qed.

Lemma length_lstrip_with s : String.length (lstrip_with p s) <= String.length s.
Proof. induction s as [|c s IH]; simpl; [lia|]. destruct (p c); simpl; lia. Qed.

Lemma length_lstrip_with_lt s :
  head_is p s = true -> String.length (lstrip_with p s) < String.length s.
Proof.
  destruct s as [|c s]; simpl; [discriminate|]. intros ->.
  pose proof (length_lstrip_with s). lia.
Qed.

Lemma last_is_lstrip_with q s :
  last_is q s = false -> last_is q (lstrip_with p s) = false.
Proof.
  induction s as [|c s IH]; simpl; [reflexivity|].
  destruct (p c); [|auto]. destruct s; auto.
Qed.

Lemma rstrip_with_last s : last_is p s = false -> rstrip_with p s = s.
Proof.
  induction s as [|c s IH]; [reflexivity|].
  destruct s as [|d s].
  - simpl. intros ->. reflexivity.
  - intros H. change (last_is p (String d s) = false) in H.
    change (rstrip_with p (String c (String d s)))
      with (match rstrip_with p (String d s) with
            | "" => if p c then "" else String c ""
            | r => String c r end).
    rewrite (IH H). reflexivity.
Qed.

Lemma last_is_rstrip_with s : last_is p (rstrip_with p s) = false.
Proof.
  induction s as [|c s IH]; [reflexivity|]. simpl.
  destruct (rstrip_with p s) as [|d r] eqn:Hr.
  - destruct (p c) eqn:Hc; simpl; auto.
  - exact IH.
Qed.

Lemma rstrip_with_blank ws : all_chars p ws = true -> rstrip_with p ws = "".
Proof.
  induction ws as [|c ws IH]; simpl; [reflexivity|].
  intros [-> H]%andb_prop. rewrite (IH H). reflexivity.
Qed.

Lemma rstrip_with_all x ws :
  all_chars p ws = true -> last_is p x = false ->
  rstrip_with p (x +:+ ws) = x.
Proof.
  intros Hws. induction x as [|c x IH]; intros Hx.
  - norm. apply rstrip_with_blank, Hws.
  - destruct x as [|d x].
    + norm. rewrite (rstrip_with_blank _ Hws), Hx. reflexivity.
    + change (last_is p (String d x) = false) in Hx.
      specialize (IH Hx). norm. rewrite IH. reflexivity.
Qed.

Lemma rstrip_with_app s : exists ws,
  all_chars p ws = true /\ s = rstrip_with p s +:+ ws.
Proof.
  induction s as [|c s (ws & Hws & Hs)]; simpl.
  - exists ""; auto.
  - destruct (rstrip_with p s) as [|d r] eqn:Hr.
    + destruct (p c) eqn:Hc.
      * exists (String c ws); norm. subst s. rewrite Hc, Hws. auto.
      * exists ws. norm. subst s. auto.
    + exists ws. split; [assumption|]. norm. rewrite <- Hs. reflexivity.
Qed.

Lemma length_rstrip_with s : String.length (rstrip_with p s) <= String.length s.
Proof.
  induction s as [|c s IH]; simpl; [lia|].
  destruct (rstrip_with p s); [destruct (p c)|]; simpl in *; lia.
Qed.

Lemma head_is_rstrip_with q s :
  head_is q s = false -> head_is q (rstrip_with p s) = false.
Proof.
  destruct s as [|c s]; simpl; [reflexivity|]. intros Hc.
  destruct (rstrip_with p s); [destruct (p c)|]; simpl; auto.
Qed.

End Strip.

Lemma strip_core ws1 core ws2 :
  all_chars isspace ws1 = true -> all_chars isspace ws2 = true ->
  head_is isspace core = false -> last_is isspace core = false ->
  strip (ws1 +:+ core +:+ ws2) = core.
Proof.
  intros H1 H2 Hh Hl. unfold strip. rewrite (lstrip_with_all _ _ _ H1).
  destruct core as [|c core].
  - norm. rewrite (lstrip_with_blank _ _ H2). reflexivity.
  - rewrite lstrip_with_head by (norm; exact Hh).
    apply rstrip_with_all; assumption.
Qed.

Lemma strip_ends s :
  head_is isspace (strip s) = false /\ last_is isspace (strip s) = false.
Proof.
  split; [|apply last_is_rstrip_with].
  apply head_is_rstrip_with, head_is_lstrip_with.
Qed.

Lemma strip_fixed s :
  head_is isspace s = false -> last_is isspace s = false -> strip s = s.
Proof.
  intros Hh Hl. unfold strip. rewrite (lstrip_with_head _ _ Hh).
  apply rstrip_with_last, Hl.
Qed.

Lemma strip_app s : exists ws1 ws2,
  all_chars isspace ws1 = true /\ all_chars isspace ws2 = true /\
  s = ws1 +:+ strip s +:+ ws2.
Proof.
  destruct (lstrip_with_app isspace s) as (ws1 & H1 & E1).
  destruct (rstrip_with_app isspace (lstrip_with isspace s)) as (ws2 & H2 & E2).
  exists ws1, ws2. unfold strip. rewrite <- E2. auto.
Qed.

Lemma all_at_run pre : all_chars is_at pre = true -> pre = at_run (String.length pre).
Proof.
  induction pre as [|c pre IH]; simpl; [reflexivity|].
  intros [Hc H]%andb_prop. rewrite <- (IH H). f_equal.
  unfold is_at in Hc. simpl in Hc. rewrite orb_false_r in Hc.
  apply Ascii.eqb_eq, Hc.
Qed.

Lemma lstrip_at_run n t : head_is is_at t = false -> lstrip "@" (at_run n +:+ t) = t.
Proof.
  intros Ht. induction n as [|n IH]; norm.
  - apply lstrip_with_head, Ht.
  - exact IH.
Qed.

Lemma lstrip_one_at u :
  head_is is_at (strip_one_at u) = false -> lstrip "@" u = strip_one_at u.
Proof.
  destruct u as [|c u]; [reflexivity|].
  change (lstrip "@") with (lstrip_with is_at).
  cbn [lstrip_with strip_one_at]. destruct (is_at c); [|reflexivity].
  apply lstrip_with_head.
Qed.

Lemma lstrip_two_ats u :
  head_is is_at (strip_one_at u) = true ->
  String.length (lstrip "@" u) < String.length (strip_one_at u).
Proof.
  destruct u as [|c u]; [discriminate|].
  change (lstrip "@") with (lstrip_with is_at).
  cbn [lstrip_with strip_one_at]. destruct (is_at c) eqn:Hc; cbn [head_is].
  - apply length_lstrip_with_lt.
  - congruence.
Qed.

Lemma normalize_ends s :
  last_is isspace (_normalize_username s) = false /\
  head_is is_at (_normalize_username s) = false.
Proof.
  unfold _normalize_username, lstrip. fold is_at. split.
  - rewrite last_is_lower by apply isspace_lower_char.
    apply last_is_lstrip_with, strip_ends.
  - rewrite head_is_lower by apply is_at_lower_char.
    apply head_is_lstrip_with.
Qed.

Lemma length_normalize s :
  String.length (_normalize_username s) <= String.length (lstrip_with isspace s).
Proof.
  unfold _normalize_username, lstrip, strip. rewrite length_lower.
  etransitivity; [apply length_lstrip_with|]. apply length_rstrip_with.
Qed.

End PyStrFacts.

(** ** Normalisation *)

Section Normalisation.
Import PyStr Shape PyStrFacts.

(** C1, the claim as written fails: the code strips every leading '@',
    the specification's normalisation at most one. *)
Lemma normalize_two_ats_differs :
  _normalize_username "@@user" <> normalize_spec "@@user".
Proof. vm_compute. discriminate. Qed.

(** C1, amended: every string splits into leading whitespace, a run of
    '@', a rest [t] and trailing whitespace; the normalised username is
    [t] lowercased, whatever the length of the run.  The result is the one
    of the specification's normalisation exactly when the trimmed string
    does not start with two '@'.  The three spellings of "user" agree. *)
Theorem normalize_strips_every_at :
  (forall s, exists ws1 n t ws2, splits s ws1 n t ws2) /\
  (forall s ws1 n t ws2,
     splits s ws1 n t ws2 -> _normalize_username s = lower t) /\
  (forall s,
     _normalize_username s = normalize_spec s <->
     head_is is_at (strip_one_at (strip s)) = false) /\
  _normalize_username " @User " = "user" /\
  _normalize_username "user" = "user" /\
  _normalize_username "USER" = "user".
Proof.
  split; [|split; [|split; [|repeat split]]].
  - intros s.
    destruct (strip_app s) as (ws1 & ws2 & H1 & H2 & Hs).
    destruct (lstrip_with_app is_at (strip s)) as (pre & Hpre & Hcore).
    apply all_at_run in Hpre.
    exists ws1, (String.length pre), (lstrip_with is_at (strip s)), ws2.
    unfold splits. rewrite <- Hpre, <- Hcore.
    repeat split; auto; try apply strip_ends. apply head_is_lstrip_with.
  - intros s ws1 n t ws2 (-> & H1 & H2 & Hh & Hl & Ht).
    unfold _normalize_username. rewrite strip_core by assumption.
    rewrite lstrip_at_run by assumption. reflexivity.
  - intros s. unfold _normalize_username, normalize_spec.
    destruct (head_is is_at (strip_one_at (strip s))) eqn:Hh.
    + split; [|discriminate]. intros E.
      apply (f_equal String.length) in E. rewrite !length_lower in E.
      pose proof (lstrip_two_ats _ Hh). lia.
    + split; [reflexivity|]. intros _. rewrite lstrip_one_at by assumption.
      reflexivity.
Qed.

Lemma normalize_strips_every_at_witness :
  _normalize_username "  @@User " = lower "User".
Proof.
  apply (proj1 (proj2 normalize_strips_every_at) _ "  " 2 "User" " ").
  vm_compute. repeat split.
Defined.

(** C2, the claim as written fails: after "@ user" loses its '@', the
    space that followed it is at the front and goes at the next pass. *)
Lemma normalize_not_idempotent :
  _normalize_username (_normalize_username "@ user")
  <> _normalize_username "@ user".
Proof. vm_compute. discriminate. Qed.

(** C2, amended: normalising twice gives the same as normalising once
    exactly when the normalised username does not start with whitespace,
    that is when no whitespace follows the leading run of '@' of the
    trimmed string; this is so for every string whose trimmed form does
    not start with '@'. *)
Theorem normalize_idempotent_iff :
  (forall s,
     _normalize_username (_normalize_username s) = _normalize_username s <->
     head_is isspace (_normalize_username s) = false) /\
  (forall s,
     head_is isspace (_normalize_username s)
     = head_is isspace (lstrip "@" (strip s))) /\
  (forall s,
     head_is is_at (strip s) = false ->
     _normalize_username (_normalize_username s) = _normalize_username s).
Proof.
  assert (Hiff : forall s,
     _normalize_username (_normalize_username s) = _normalize_username s <->
     head_is isspace (_normalize_username s) = false).
  { intros s. destruct (normalize_ends s) as [Hl Ha].
    destruct (head_is isspace (_normalize_username s)) eqn:Hh.
    - split; [|discriminate]. intros E.
      apply (f_equal String.length) in E.
      pose proof (length_normalize (_normalize_username s)).
      pose proof (length_lstrip_with_lt _ _ Hh). lia.
    - split; [reflexivity|]. intros _.
      set (u := _normalize_username s) in *.
      unfold _normalize_username at 1.
      rewrite (strip_fixed u Hh Hl).
      change (lstrip "@") with (lstrip_with is_at).
      rewrite (lstrip_with_head _ _ Ha). apply lower_idem. }
  assert (Hhead : forall s,
     head_is isspace (_normalize_username s)
     = head_is isspace (lstrip "@" (strip s))).
  { intros s. apply head_is_lower, isspace_lower_char. }
  split; [exact Hiff|split; [exact Hhead|]].
  intros s Hs. apply Hiff. rewrite Hhead.
  change (lstrip "@") with (lstrip_with is_at).
  rewrite (lstrip_with_head _ _ Hs). apply strip_ends.
Qed.

Lemma normalize_idempotent_iff_witness :
  _normalize_username (_normalize_username " @@User ")
  = _normalize_username " @@User ".
Proof.
  apply (proj1 normalize_idempotent_iff). vm_compute. reflexivity.
Defined.

End Normalisation.

(** ** The extractor *)

Section Extractor.

Lemma only_dicts_filter items :
  map JDict (only_dicts items) = List.filter is_dict items.
Proof.
  induction items as [|item items IH]; [reflexivity|].
  destruct item; simpl; rewrite ?IH; reflexivity.
Qed.

Lemma probe_keys_skip before keys d :
  Forall (fun k => is_list (dict_get d k) = false) before ->
  probe_keys (before ++ keys) d = probe_keys keys d.
Proof.
  induction 1 as [|k before Hk _ IH]; [reflexivity|]. simpl.
  destruct (dict_get d k); try exact IH. discriminate.
Qed.

Lemma probe_keys_none keys d :
  Forall (fun k => is_list (dict_get d k) = false) keys ->
  probe_keys keys d = None.
Proof.
  intros H. rewrite <- (app_nil_r keys). rewrite probe_keys_skip; auto.
Qed.

Lemma first_list_value_skip before values :
  Forall (fun v => is_list v = false) before ->
  first_list_value (before ++ values) = first_list_value values.
Proof.
  induction 1 as [|v before Hv _ IH]; [reflexivity|]. simpl.
  destruct v; try exact IH. discriminate.
Qed.

Lemma dict_get_value d key :
  dict_get d key = JNull \/ In (dict_get d key) (dict_values d).
Proof.
  induction d as [|[k v] d IH]; simpl; [auto|].
  destruct (String.eqb k key); [auto|]. destruct IH; auto.
Qed.

Lemma dict_get_not_list d key :
  Forall (fun v => is_list v = false) (dict_values d) ->
  is_list (dict_get d key) = false.
Proof.
  intros H. destruct (dict_get_value d key) as [-> | Hin]; [reflexivity|].
  rewrite Forall_forall in H. apply H. apply list_elem_of_In, Hin.
Qed.

(** C5: on a list-shaped document the extractor returns exactly the
    elements that are dicts, in their original order; the others are
    dropped. *)
Theorem extract_list_document :
  forall items : list json,
    map JDict (_extract_candidates (JList items)) = List.filter is_dict items.
Proof. intros items. apply only_dicts_filter. Qed.

(** C4: on a dict-shaped document the extractor probes
    [relationships_following], [relationships_followers], [following],
    [followers] in this order and returns the dict elements of the first
    of them whose value is a list, wherever the key stands in the document
    and whatever list-valued keys come before it there.  Keys are matched
    exactly: [Following] is not [following]. *)
Theorem extract_priority_keys :
  common_keys = ["relationships_following"; "relationships_followers";
                 "following"; "followers"] /\
  (forall (d : dict) before key after value,
     common_keys = (before ++ key :: after)%list ->
     Forall (fun k => is_list (dict_get d k) = false) before ->
     dict_get d key = JList value ->
     map JDict (_extract_candidates (JDict d)) = List.filter is_dict value) /\
  (forall (d : dict) value,
     dict_get d "relationships_following" = JList value ->
     map JDict (_extract_candidates (JDict d)) = List.filter is_dict value) /\
  _extract_candidates
    (JDict [("media", JList [JDict [("value", JStr "m")]]);
            ("followers", JList [JInt 1; JDict [("value", JStr "a")]]);
            ("following", JList [JDict [("value", JStr "b")]; JNull])])
  = [[("value", JStr "b")]] /\
  _extract_candidates
    (JDict [("media", JList [JDict [("value", JStr "m")]]);
            ("Following", JList [JDict [("value", JStr "b")]])])
  = [[("value", JStr "m")]].
Proof.
  split; [reflexivity|]. split; [|split; [|split; reflexivity]].
  - intros d before key after value Hkeys Hbefore Hkey.
    unfold _extract_candidates. rewrite Hkeys, probe_keys_skip by assumption.
    simpl. rewrite Hkey. apply only_dicts_filter.
  - intros d value Hkey. unfold _extract_candidates. simpl.
    rewrite Hkey. apply only_dicts_filter.
Qed.

Lemma extract_priority_keys_witness :
  map JDict (_extract_candidates
    (JDict [("x", JList []); ("followers", JList [JNull; JDict []]);
            ("following", JInt 3)]))
  = List.filter is_dict [JNull; JDict []].
Proof.
  apply (proj1 (proj2 extract_priority_keys) _
           ["relationships_following"; "relationships_followers"; "following"]
           "followers" []).
  - reflexivity.
  - repeat constructor.
  - reflexivity.
Defined.

(** C6: when no priority key of a dict-shaped document holds a list, the
    extractor returns the dict elements of the first list among the
    document's values in enumeration order; a dict without any list among
    its values, and a document that is neither a list nor a dict, give the
    empty list.  The extractor is a total function: there is no input on
    which it raises. *)
Theorem extract_fallback :
  (forall (d : dict) before value after,
     Forall (fun k => is_list (dict_get d k) = false) common_keys ->
     dict_values d = (before ++ JList value :: after)%list ->
     Forall (fun v => is_list v = false) before ->
     map JDict (_extract_candidates (JDict d)) = List.filter is_dict value) /\
  (forall d : dict,
     Forall (fun v => is_list v = false) (dict_values d) ->
     _extract_candidates (JDict d) = []) /\
  (forall data : json,
     is_list data = false -> is_dict data = false ->
     _extract_candidates data = []).
Proof.
  split; [|split].
  - intros d before value after Hkeys Hvalues Hbefore.
    unfold _extract_candidates. rewrite probe_keys_none by assumption.
    rewrite Hvalues, first_list_value_skip by assumption. simpl.
    apply only_dicts_filter.
  - intros d Hvalues. unfold _extract_candidates.
    rewrite probe_keys_none
      by (apply Forall_forall; intros k _; apply dict_get_not_list, Hvalues).
    rewrite <- (app_nil_r (dict_values d)).
    rewrite first_list_value_skip by assumption. reflexivity.
  - intros data Hl Hd. destruct data; try reflexivity; discriminate.
Qed.

Lemma extract_fallback_witness :
  map JDict (_extract_candidates
    (JDict [("version", JInt 2); ("Following", JList [JDict []; JBool true]);
            ("other", JList [JDict [("k", JNull)]])]))
  = List.filter is_dict [JDict []; JBool true] /\
  _extract_candidates (JDict [("version", JInt 2); ("name", JStr "x")]) = [] /\
  _extract_candidates (JStr "followers") = [].
Proof.
  split; [|split].
  - apply (proj1 extract_fallback _ [JInt 2] _ [JList [JDict [("k", JNull)]]]).
    + repeat constructor.
    + reflexivity.
    + repeat constructor.
  - apply (proj1 (proj2 extract_fallback)). repeat constructor.
  - apply (proj2 (proj2 extract_fallback)); reflexivity.
Defined.

End Extractor.

(** ** Usernames of a record *)

Section Records.
Import Shape.

Lemma accepted_text_field d key value :
  text_field d key value -> accepted (dict_get d key) = Some value.
Proof.
  intros [-> Hv]. simpl. destruct (PyStr.strip value); [congruence|reflexivity].
Qed.

Lemma accepted_none d key :
  (forall value, ~ text_field d key value) -> accepted (dict_get d key) = None.
Proof.
  intros H. unfold accepted. destruct (dict_get d key) eqn:E; try reflexivity.
  destruct (PyStr.strip s) eqn:Es; [reflexivity|].
  destruct (H s). split; [assumption|]. rewrite Es. discriminate.
Qed.

Lemma first_value_nested item value :
  nested_value item "string_list_data" value ->
  first_value (dict_get item "string_list_data") = Some value.
Proof.
  intros (first & rest & -> & Hv). simpl. apply accepted_text_field, Hv.
Qed.

Lemma first_value_none item :
  (forall value, ~ nested_value item "string_list_data" value) ->
  first_value (dict_get item "string_list_data") = None.
Proof.
  intros H. unfold first_value.
  destruct (dict_get item "string_list_data") as [| | | | |items|] eqn:E;
    try reflexivity.
  destruct items as [|first rest]; [reflexivity|].
  destruct first as [| | | | | |d]; try reflexivity.
  apply accepted_none. intros value Hv. apply (H value). exists d, rest. auto.
Qed.

(** C3, the claim as written fails: a nested list under any other field
    than [string_list_data] is not looked at. *)
Lemma nested_value_other_field_ignored :
  let item := [("data", JList [JDict [("value", JStr "alice")]])] in
  nested_value_spec item "alice" /\
  loop_body ∅ item = ∅ /\
  loop_body ∅ item <> set_add (_normalize_username "alice") ∅.
Proof.
  split; [|split].
  - exists "data", [("value", JStr "alice")], []. repeat split.
    + constructor.
    + vm_compute. discriminate.
  - reflexivity.
  - vm_compute. discriminate.
Qed.

(** C3, amended: the nested list is the one under the field
    [string_list_data].  If that field holds a non-empty list whose first
    element is a dict with a string field [value] of non-empty trimmed
    content, that string, normalised, is the record's username, whatever
    the other elements and the flat fields are.  Only otherwise are the
    flat fields [username], then [value], consulted, and the first that is
    a string of non-empty trimmed content is taken.  Otherwise the record
    adds nothing. *)
Theorem record_username :
  forall (usernames : gset string) (item : dict),
    (forall value,
       nested_value item "string_list_data" value ->
       loop_body usernames item
       = set_add (_normalize_username value) usernames) /\
    ((forall value, ~ nested_value item "string_list_data" value) ->
     (forall value,
        text_field item "username" value ->
        loop_body usernames item
        = set_add (_normalize_username value) usernames) /\
     ((forall value, ~ text_field item "username" value) ->
      (forall value,
         text_field item "value" value ->
         loop_body usernames item
         = set_add (_normalize_username value) usernames) /\
      ((forall value, ~ text_field item "value" value) ->
       loop_body usernames item = usernames))).
Proof.
  intros usernames item. split.
  - intros value Hv. unfold loop_body.
    rewrite (first_value_nested _ _ Hv). reflexivity.
  - intros Hnested. unfold loop_body. rewrite (first_value_none _ Hnested).
    cbn [flat_fields]. split.
    + intros value Hv. rewrite (accepted_text_field _ _ _ Hv). reflexivity.
    + intros Hu. rewrite (accepted_none _ _ Hu). split.
      * intros value Hv. rewrite (accepted_text_field _ _ _ Hv). reflexivity.
      * intros Hvalue. rewrite (accepted_none _ _ Hvalue). reflexivity.
Qed.

Lemma record_username_witness :
  loop_body ∅ [("username", JStr "flat");
               ("string_list_data",
                JList [JDict [("value", JStr " @Nested ")]; JInt 0])]
  = set_add (_normalize_username " @Nested ") ∅ /\
  loop_body ∅ [("value", JStr "second"); ("username", JStr "First");
               ("string_list_data",
                JList [JDict [("value", JStr "  ")];
                       JDict [("value", JStr "later")]])]
  = set_add (_normalize_username "First") ∅.
Proof.
  split.
  - apply (proj1 (record_username ∅ _)).
    exists [("value", JStr " @Nested ")], [JInt 0]. split; [reflexivity|].
    split; [reflexivity|]. vm_compute. discriminate.
  - refine (proj1 (proj2 (record_username ∅ _) _) "First" _).
    + intros value (first & rest & E & Hv & Hs).
      injection E as <- <-. injection Hv as <-. apply Hs. reflexivity.
    + split; [reflexivity|]. vm_compute. discriminate.
Defined.

End Records.

(** ** The difference *)

Section Differ.

(** [String.le] is the lexicographic order on code points. *)
Lemma le_lexicographic :
  (forall t, String.le "" t) /\
  (forall a s, ~ String.le (String a s) "") /\
  (forall a s b t,
     String.le (String a s) (String b t) <->
     (N_of_ascii a < N_of_ascii b)%N \/ a = b /\ String.le s t).
Proof.
  unfold String.le, String.leb. split; [|split].
  - intros [|b t]; exact I.
  - intros a s H. exact H.
  - intros a s b t. cbn [String.compare]. unfold Ascii.compare.
    destruct (N.compare_spec (N_of_ascii a) (N_of_ascii b)) as [E|L|G].
    + assert (a = b) as ->
        by (rewrite <- (ascii_N_embedding a), E; apply ascii_N_embedding).
      split; [auto|]. intros [L|[_ H]]; [lia|exact H].
    + split; [auto|]. intros _. exact I.
    + split; [intros []|]. intros [L|[-> _]]; lia.
Qed.

Lemma sorted_sorted xs : StronglySorted String.le (sorted xs).
Proof. apply StronglySorted_merge_sort; apply _. Qed.

Lemma sorted_perm xs : sorted xs ≡ₚ xs.
Proof. apply merge_sort_Permutation. Qed.

(** The result does not depend on the order in which the set is
    enumerated. *)
Lemma sorted_order_irrelevant xs ys : xs ≡ₚ ys -> sorted xs = sorted ys.
Proof.
  intros H. apply (StronglySorted_unique String.le); try apply sorted_sorted.
  rewrite !sorted_perm. exact H.
Qed.

Lemma strictly_sorted (xs : list string) :
  StronglySorted String.le xs -> NoDup xs ->
  StronglySorted (strict String.le) xs.
Proof.
  induction 1 as [|x xs Hxs IH Hx]; intros Hnd; constructor.
  - apply IH. eapply NoDup_cons_1_2, Hnd.
  - apply NoDup_cons in Hnd as [Hnotin _].
    rewrite Forall_forall in Hx |- *. intros y Hy. split; [auto|].
    intros Hyx. apply Hnotin.
    rewrite (anti_symm String.le x y); auto.
Qed.

(** C7: the differ returns the elements of following minus followers, each
    once, in strictly ascending lexicographic order; for following
    {a, b, c} and followers {b} the result is [a; c]. *)
Theorem not_following_back_sorted_difference :
  forall following followers : gset string,
    let rows := not_following_back following followers in
    (forall x, x ∈ rows <-> x ∈ following /\ x ∉ followers) /\
    NoDup rows /\
    StronglySorted (strict String.le) rows /\
    list_to_set rows = following ∖ followers /\
    (forall xs, xs ≡ₚ elements (following ∖ followers) -> sorted xs = rows) /\
    not_following_back {[ "a"; "b"; "c" ]} {[ "b" ]} = ["a"; "c"].
Proof.
  intros following followers rows.
  assert (Hperm : rows ≡ₚ elements (following ∖ followers))
    by apply sorted_perm.
  assert (Hin : forall x, x ∈ rows <-> x ∈ following /\ x ∉ followers).
  { intros x. rewrite Hperm, elem_of_elements. apply elem_of_difference. }
  assert (Hnd : NoDup rows) by (rewrite Hperm; apply NoDup_elements).
  split; [exact Hin|]. split; [exact Hnd|]. split; [|split; [|split]].
  - apply strictly_sorted; [apply sorted_sorted|exact Hnd].
  - apply set_eq. intros x.
    rewrite elem_of_list_to_set, Hin, elem_of_difference. reflexivity.
  - intros xs Hxs. apply sorted_order_irrelevant, Hxs.
  - vm_compute. reflexivity.
Qed.

Lemma not_following_back_sorted_difference_witness :
  sorted ["a"; "c"] = not_following_back {[ "a"; "b"; "c" ]} {[ "b" ]}.
Proof.
  refine (proj1 (proj2 (proj2 (proj2 (proj2
    (not_following_back_sorted_difference {[ "a"; "b"; "c" ]} {[ "b" ]})))))
    ["a"; "c"] _).
  vm_compute. apply perm_swap.
Defined.

End Differ.

(** ** The program *)

Section Run.
Import Sample.
Variable json_loads : string -> option json.
Variable csv_writerow : list string -> string.

Lemma exists_true w path text :
  files w !! path = Some text -> exists_ w path = true.
Proof. intros H. unfold exists_. rewrite H. reflexivity. Qed.

Lemma exists_false w path : files w !! path = None -> exists_ w path = false.
Proof.
  intros H. unfold exists_. rewrite H. apply bool_decide_eq_false.
  intros [x Hx]. discriminate.
Qed.

Lemma load_usernames_document w path text data :
  files w !! path = Some text -> json_loads text = Some data ->
  load_usernames json_loads w path = Return (usernames_of data).
Proof. intros Hf Hd. unfold load_usernames. rewrite Hf, Hd. reflexivity. Qed.

Lemma usernames_of_following_doc : usernames_of following_doc = {[ "alice"; "bob" ]}.
Proof. vm_compute. reflexivity. Qed.

Lemma usernames_of_followers_doc : usernames_of followers_doc = {[ "bob" ]}.
Proof. vm_compute. reflexivity. Qed.

Lemma sample_rows :
  not_following_back {[ "alice"; "bob" ]} {[ "bob" ]} = ["alice"] /\
  size ({[ "alice"; "bob" ]} : gset string) = 2 /\
  size ({[ "bob" ]} : gset string) = 1.
Proof. repeat split; vm_compute; reflexivity. Qed.

(** C8: when [following.json] holds the two records of Alice and bob and
    [followers.json] the record of BOB, the loader yields {alice, bob} and
    {bob}, the rows are [alice], and the run ends normally with the header
    row and the row of alice in the output file. *)
Theorem end_to_end :
  forall (w : world) (following_text followers_text : string),
    files w !! DEFAULT_FOLLOWING_FILE = Some following_text ->
    files w !! DEFAULT_FOLLOWERS_FILE = Some followers_text ->
    json_loads following_text = Some following_doc ->
    json_loads followers_text = Some followers_doc ->
    load_usernames json_loads w DEFAULT_FOLLOWING_FILE
    = Return {[ "alice"; "bob" ]} /\
    load_usernames json_loads w DEFAULT_FOLLOWERS_FILE = Return {[ "bob" ]} /\
    not_following_back {[ "alice"; "bob" ]} {[ "bob" ]} = ["alice"] /\
    main json_loads csv_writerow w
    = (Return tt,
       World (<[OUTPUT_FILE := csv_writerow ["username"] +:+ csv_writerow ["alice"]]>
                (files w))
             (stdout w ++ [PFollowing 2; PFollowers 1; PNotFollowingBack 1;
                           PUsername "alice"; PSaved OUTPUT_FILE])).
Proof.
  intros w t1 t2 Hf1 Hf2 Hd1 Hd2.
  pose proof (load_usernames_document _ _ _ _ Hf1 Hd1) as L1.
  pose proof (load_usernames_document _ _ _ _ Hf2 Hd2) as L2.
  rewrite usernames_of_following_doc in L1.
  rewrite usernames_of_followers_doc in L2.
  destruct sample_rows as (Hrows & Hs1 & Hs2).
  split; [exact L1|]. split; [exact L2|]. split; [exact Hrows|].
  unfold main.
  rewrite (exists_true _ _ _ Hf1), (exists_true _ _ _ Hf2). cbn [negb].
  rewrite L1, L2. cbv zeta. rewrite Hrows, Hs1, Hs2.
  unfold write_csv, print, csv_text. cbn [fold_left files stdout length].
  rewrite <- !app_assoc. reflexivity.
Qed.

(** C9: when [followers.json] is absent, or [following.json] is, the run
    ends with [SystemExit] carrying the message that names the absent file
    (the followers file when both are absent); the exit status is not 0,
    and the world is as before: no file was read through the JSON reader,
    nothing was printed and the output file is as it was. *)
Theorem missing_input_aborts :
  forall w : world,
    (files w !! DEFAULT_FOLLOWERS_FILE = None ->
     main json_loads csv_writerow w
     = (Raise (SystemExit "Missing followers.json. Put it next to this script."),
        w)) /\
    (files w !! DEFAULT_FOLLOWERS_FILE <> None ->
     files w !! DEFAULT_FOLLOWING_FILE = None ->
     main json_loads csv_writerow w
     = (Raise (SystemExit "Missing following.json. Put it next to this script."),
        w)) /\
    (files w !! DEFAULT_FOLLOWERS_FILE = None \/
     files w !! DEFAULT_FOLLOWING_FILE = None ->
     exit_code (fst (main json_loads csv_writerow w)) <> 0%Z /\
     snd (main json_loads csv_writerow w) = w /\
     files (snd (main json_loads csv_writerow w)) !! OUTPUT_FILE
     = files w !! OUTPUT_FILE).
Proof.
  intros w.
  assert (H1 : files w !! DEFAULT_FOLLOWERS_FILE = None ->
     main json_loads csv_writerow w
     = (Raise (SystemExit (missing_message DEFAULT_FOLLOWERS_FILE)), w)).
  { intros H. unfold main. rewrite (exists_false _ _ H). reflexivity. }
  assert (H2 : files w !! DEFAULT_FOLLOWERS_FILE <> None ->
     files w !! DEFAULT_FOLLOWING_FILE = None ->
     main json_loads csv_writerow w
     = (Raise (SystemExit (missing_message DEFAULT_FOLLOWING_FILE)), w)).
  { intros Hp H. unfold main.
    destruct (files w !! DEFAULT_FOLLOWERS_FILE) as [text|] eqn:E; [|congruence].
    rewrite (exists_true _ _ _ E), (exists_false _ _ H). reflexivity. }
  split; [exact H1|]. split; [exact H2|].
  intros Habsent.
  destruct (files w !! DEFAULT_FOLLOWERS_FILE) as [text|] eqn:E.
  - destruct Habsent as [Habsent|Habsent]; [discriminate|].
    rewrite H2 by (assumption || discriminate). repeat split. discriminate.
  - rewrite H1 by reflexivity. repeat split. discriminate.
Qed.

(** C10: the string "@" passes the acceptance check and normalises to the
    empty string, so a file whose document is the one record with the
    field [value] set to "@" loads as the set that holds the empty string
    as a username. *)
Theorem empty_username_loaded :
  forall (w : world) (path text : string),
    files w !! path = Some text ->
    json_loads text = Some (JList [JDict [("value", JStr "@")]]) ->
    accepted (JStr "@") = Some "@" /\
    _normalize_username "@" = "" /\
    load_usernames json_loads w path = Return {[ "" ]} /\
    "" ∈ usernames_of (JList [JDict [("value", JStr "@")]]).
Proof.
  intros w path text Hf Hd.
  split; [reflexivity|]. split; [reflexivity|].
  rewrite (load_usernames_document _ _ _ _ Hf Hd).
  assert (E : usernames_of (JList [JDict [("value", JStr "@")]]) = {[ "" ]})
    by (vm_compute; reflexivity).
  rewrite E. split; [reflexivity|]. apply elem_of_singleton. reflexivity.
Qed.

End Run.

Lemma end_to_end_witness :
  files (snd (main Sample.loads Sample.writerow Sample.sample_world)) !! OUTPUT_FILE
  = Some (Sample.writerow ["username"] +:+ Sample.writerow ["alice"]).
Proof.
  destruct (end_to_end Sample.loads Sample.writerow Sample.sample_world Sample.following_json Sample.followers_json)
    as (_ & _ & _ & ->); try (vm_compute; reflexivity).
Defined.

Lemma missing_input_aborts_witness :
  let w1 := World {[ DEFAULT_FOLLOWING_FILE := Sample.following_json ]} [] in
  let w2 := World {[ DEFAULT_FOLLOWERS_FILE := Sample.followers_json ]} [] in
  main Sample.loads Sample.writerow w1
  = (Raise (SystemExit "Missing followers.json. Put it next to this script."),
     w1) /\
  main Sample.loads Sample.writerow w2
  = (Raise (SystemExit "Missing following.json. Put it next to this script."),
     w2) /\
  files (snd (main Sample.loads Sample.writerow w2)) !! OUTPUT_FILE = None.
Proof.
  intros w1 w2. split; [|split].
  - apply (missing_input_aborts Sample.loads Sample.writerow w1).
    vm_compute. reflexivity.
  - apply (missing_input_aborts Sample.loads Sample.writerow w2).
    + vm_compute. discriminate.
    + vm_compute. reflexivity.
  - destruct (missing_input_aborts Sample.loads Sample.writerow w2)
      as (_ & _ & H).
    destruct H as (_ & _ & ->); [right|]; vm_compute; reflexivity.
Defined.

Lemma empty_username_loaded_witness :
  let text := Sample.text "[{'value': '@'}]" in
  let w := World {[ DEFAULT_FOLLOWERS_FILE := text ]} [] in
  load_usernames Sample.loads w DEFAULT_FOLLOWERS_FILE = Return {[ "" ]}.
Proof.
  intros text w.
  apply (empty_username_loaded Sample.loads w DEFAULT_FOLLOWERS_FILE text);
    vm_compute; reflexivity.
Defined.

(** * Further properties of the code *)

(** ** Canonical usernames *)

Section Canonical.
Import PyStr Shape PyStrFacts.

Lemma append_assoc (a b c : string) : (a +:+ b) +:+ c = a +:+ b +:+ c.
Proof. induction a as [|x a IH]; norm; [reflexivity|]. rewrite IH. reflexivity. Qed.

Lemma all_chars_app p (a b : string) :
  all_chars p a = true -> all_chars p b = true -> all_chars p (a +:+ b) = true.
Proof.
  induction a as [|x a IH]; norm; [auto|].
  intros [-> Ha]%andb_prop Hb. simpl. auto.
Qed.

Lemma lstrip_with_lower p s :
  (forall c, p (lower_char c) = p c) ->
  lstrip_with p (lower s) = lower (lstrip_with p s).
Proof.
  intros Hp. induction s as [|c s IH]; [reflexivity|].
  cbn [lower lstrip_with]. rewrite Hp. destruct (p c); [exact IH|reflexivity].
Qed.

Lemma rstrip_with_lower p s :
  (forall c, p (lower_char c) = p c) ->
  rstrip_with p (lower s) = lower (rstrip_with p s).
Proof.
  intros Hp. induction s as [|c s IH]; [reflexivity|].
  cbn [lower rstrip_with]. rewrite IH, Hp.
  destruct (rstrip_with p s); [destruct (p c)|]; reflexivity.
Qed.

Lemma normalize_lower s : _normalize_username (lower s) = _normalize_username s.
Proof.
  unfold _normalize_username, strip.
  change (lstrip "@") with (lstrip_with is_at).
  rewrite (lstrip_with_lower isspace) by apply isspace_lower_char.
  rewrite (rstrip_with_lower isspace) by apply isspace_lower_char.
  rewrite (lstrip_with_lower is_at) by apply is_at_lower_char.
  apply lower_idem.
Qed.

Lemma strip_padded ws1 s ws2 :
  all_chars isspace ws1 = true -> all_chars isspace ws2 = true ->
  strip (ws1 +:+ s +:+ ws2) = strip s.
Proof.
  intros H1 H2. destruct (strip_app s) as (a & b & Ha & Hb & Hs).
  rewrite Hs at 1. rewrite !append_assoc.
  rewrite <- (append_assoc ws1 a), <- (append_assoc (ws1 +:+ a)).
  rewrite append_assoc.
  apply strip_core; auto using all_chars_app; apply strip_ends.
Qed.

Lemma rstrip_with_cons p c s :
  p c = false -> rstrip_with p (String c s) = String c (rstrip_with p s).
Proof.
  intros Hc. cbn [rstrip_with]. rewrite Hc.
  destruct (rstrip_with p s); reflexivity.
Qed.

Lemma rstrip_at_run n s :
  head_is isspace s = false ->
  rstrip_with isspace (at_run n +:+ s) = at_run n +:+ strip s.
Proof.
  intros Hs. induction n as [|n IH].
  - rewrite !append_nil. unfold strip. rewrite (lstrip_with_head _ _ Hs).
    reflexivity.
  - cbn [at_run]. rewrite !append_cons, rstrip_with_cons by reflexivity.
    rewrite IH. reflexivity.
Qed.

Lemma strip_at_run n s :
  head_is isspace s = false -> strip (at_run n +:+ s) = at_run n +:+ strip s.
Proof.
  intros Hs. rewrite <- (rstrip_at_run n s Hs). unfold strip. f_equal.
  apply lstrip_with_head. destruct n; [exact Hs|reflexivity].
Qed.


(** X2: the strings that normalisation leaves unchanged are exactly those
    that neither start nor end with whitespace, do not start with '@' and
    are their own lowercase form. *)
Theorem normalize_fixed_points :
  forall s : string,
    _normalize_username s = s <->
    head_is isspace s = false /\ last_is isspace s = false /\
    head_is is_at s = false /\ lower s = s.
Proof.
  intros s. split.
  - intros E. destruct (normalize_ends s) as [Hl Ha]. rewrite E in Hl, Ha.
    split; [|split; [exact Hl|split; [exact Ha|]]].
    + destruct (head_is isspace s) eqn:Hh; [|reflexivity].
      pose proof (length_normalize s) as L. rewrite E in L.
      pose proof (length_lstrip_with_lt _ _ Hh). lia.
    + rewrite <- E. unfold _normalize_username. apply lower_idem.
  - intros (Hh & Hl & Ha & Hlow). unfold _normalize_username.
    rewrite (strip_fixed s Hh Hl).
    change (lstrip "@") with (lstrip_with is_at).
    rewrite (lstrip_with_head _ _ Ha). exact Hlow.
Qed.

Lemma normalize_fixed_points_witness : _normalize_username "al.ice_9" = "al.ice_9".
Proof. apply normalize_fixed_points. vm_compute. repeat split. Defined.

(** X3: two strings with the same lowercase form normalise to the same
    username. *)
Theorem normalize_case_insensitive :
  forall s t : string,
    lower s = lower t -> _normalize_username s = _normalize_username t.
Proof.
  intros s t E. rewrite <- (normalize_lower s), <- (normalize_lower t), E.
  reflexivity.
Qed.

Lemma normalize_case_insensitive_witness :
  _normalize_username " @Alice" = _normalize_username " @aLICE".
Proof. apply normalize_case_insensitive. vm_compute. reflexivity. Defined.

(** X4: whitespace added around a string does not change its normalised
    username. *)
Theorem normalize_ignores_outer_whitespace :
  forall ws1 s ws2 : string,
    all_chars isspace ws1 = true -> all_chars isspace ws2 = true ->
    _normalize_username (ws1 +:+ s +:+ ws2) = _normalize_username s.
Proof.
  intros ws1 s ws2 H1 H2. unfold _normalize_username.
  rewrite strip_padded by assumption. reflexivity.
Qed.

Lemma normalize_ignores_outer_whitespace_witness :
  _normalize_username ("  " +:+ "@Bob" +:+ " ") = _normalize_username "@Bob".
Proof. apply normalize_ignores_outer_whitespace; reflexivity. Defined.

(** X5: any number of '@' put in front of a string that does not start
    with whitespace does not change its normalised username. *)
Theorem normalize_ignores_leading_ats :
  forall (n : nat) (s : string),
    head_is isspace s = false ->
    _normalize_username (at_run n +:+ s) = _normalize_username s.
Proof.
  intros n s Hs. unfold _normalize_username. rewrite strip_at_run by assumption.
  change (lstrip "@") with (lstrip_with is_at). f_equal.
  induction n as [|n IH]; norm; [reflexivity|exact IH].
Qed.

Lemma normalize_ignores_leading_ats_witness :
  _normalize_username (at_run 3 +:+ "Carol ") = _normalize_username "Carol ".
Proof. apply normalize_ignores_leading_ats. reflexivity. Defined.

End Canonical.

(** ** Where candidates come from *)

Section Candidates.

Lemma dict_get_list_in (d : dict) key items :
  dict_get d key = JList items -> In (key, JList items) d.
Proof.
  induction d as [|[k v] d IH]; simpl; [discriminate|].
  destruct (String.eqb_spec k key) as [->|_]; [intros ->; auto|auto].
Qed.

Lemma probe_keys_some keys (d : dict) found :
  probe_keys keys d = Some found ->
  exists key items,
    In key keys /\ dict_get d key = JList items /\ found = only_dicts items.
Proof.
  induction keys as [|key keys IH]; simpl; [discriminate|].
  destruct (dict_get d key) as [| | | | |items|] eqn:E;
    try (intros H; destruct (IH H) as (k & i & ? & ? & ?); exists k, i; auto).
  intros [= <-]. exists key, items. auto.
Qed.

Lemma first_list_value_some values found :
  first_list_value values = Some found ->
  exists items, In (JList items) values /\ found = only_dicts items.
Proof.
  induction values as [|v values IH]; simpl; [discriminate|].
  destruct v as [| | | | |items|];
    try (intros H; destruct (IH H) as (i & ? & ?); exists i; auto).
  intros [= <-]. exists items. auto.
Qed.

Lemma dict_values_in (d : dict) v :
  In v (dict_values d) -> exists key, In (key, v) d.
Proof.
  unfold dict_values. rewrite in_map_iff. intros ([k v'] & <- & H).
  exists k. exact H.
Qed.

Lemma in_only_dicts items (d : dict) :
  In d (only_dicts items) <-> In (JDict d) items.
Proof.
  induction items as [|item items IH]; [reflexivity|].
  destruct item; simpl; rewrite IH;
    try (split; [auto|intros [H|H]; [discriminate|exact H]]).
  split; (intros [H|H]; [left; congruence|right; exact H]).
Qed.

Lemma extract_unrecognised data :
  unrecognised data = true -> _extract_candidates data = [].
Proof.
  destruct data as [| | | | |items|d]; intros H; try reflexivity;
    [discriminate|].
  cbn [unrecognised] in H. cbn [_extract_candidates].
  assert (Hvalues : Forall (fun v => is_list v = false) (dict_values d)).
  { apply Forall_forall. intros v Hv. rewrite forallb_forall in H.
    apply negb_true_iff, H, list_elem_of_In, Hv. }
  rewrite probe_keys_none
    by (apply Forall_forall; intros k _; apply dict_get_not_list, Hvalues).
  rewrite <- (app_nil_r (dict_values d)).
  rewrite first_list_value_skip by assumption. reflexivity.
Qed.

(** X6: the candidates always come from one list, either the document
    itself or the value of one entry of a dict-shaped document; lists
    nested deeper are never looked at, and two lists are never merged. *)
Theorem candidates_from_one_list :
  forall data : json,
    _extract_candidates data = [] \/
    (exists items,
       data = JList items /\
       map JDict (_extract_candidates data) = List.filter is_dict items) \/
    (exists entries key items,
       data = JDict entries /\ In (key, JList items) entries /\
       map JDict (_extract_candidates data) = List.filter is_dict items).
Proof.
  intros [| | | | |items|d]; auto.
  - right. left. exists items. split; [reflexivity|]. apply only_dicts_filter.
  - cbn [_extract_candidates].
    destruct (probe_keys common_keys d) as [found|] eqn:Hp.
    + apply probe_keys_some in Hp as (key & items & _ & Hkey & ->).
      right. right. exists d, key, items.
      split; [reflexivity|]. split; [|apply only_dicts_filter].
      apply dict_get_list_in, Hkey.
    + destruct (first_list_value (dict_values d)) as [found|] eqn:Hf; auto.
      apply first_list_value_some in Hf as (items & Hin & ->).
      apply dict_values_in in Hin as (key & Hin).
      right. right. exists d, key, items.
      split; [reflexivity|]. split; [exact Hin|apply only_dicts_filter].
Qed.

End Candidates.

(** ** What the loader collects *)

Section Loader.
Import PyStr Shape PyStrFacts.

Lemma accepted_some value s :
  accepted value = Some s -> value = JStr s /\ strip s <> "".
Proof.
  destruct value; simpl; try discriminate.
  destruct (strip s0) eqn:E; simpl; [discriminate|].
  intros [= ->]. split; [reflexivity|]. rewrite E. discriminate.
Qed.

Lemma first_value_some string_list_data s :
  first_value string_list_data = Some s -> strip s <> "".
Proof.
  destruct string_list_data as [| | | | |[|first rest]|]; simpl; try discriminate.
  destruct first; try discriminate. intros H. apply accepted_some in H as [_ H].
  exact H.
Qed.

Lemma flat_fields_cases keys item (usernames : gset string) :
  flat_fields keys item usernames = usernames \/
  exists s, strip s <> "" /\
    flat_fields keys item usernames = set_add (_normalize_username s) usernames.
Proof.
  induction keys as [|key keys IH]; simpl; [auto|].
  destruct (accepted (dict_get item key)) as [s|] eqn:E; [|exact IH].
  right. exists s. split; [|reflexivity]. apply accepted_some in E as [_ E].
  exact E.
Qed.

Lemma loop_body_cases (usernames : gset string) item :
  loop_body usernames item = usernames \/
  exists s, strip s <> "" /\
    loop_body usernames item = set_add (_normalize_username s) usernames.
Proof.
  unfold loop_body.
  destruct (first_value (dict_get item "string_list_data")) as [s|] eqn:E.
  - right. exists s. split; [|reflexivity]. eapply first_value_some, E.
  - apply flat_fields_cases.
Qed.

Lemma flat_fields_union keys item (usernames : gset string) :
  flat_fields keys item usernames = flat_fields keys item ∅ ∪ usernames.
Proof.
  induction keys as [|key keys IH]; simpl.
  - symmetry. apply (left_id_L ∅ (∪)).
  - destruct (accepted (dict_get item key)); [|exact IH].
    unfold set_add. rewrite (right_id_L ∅ (∪)). reflexivity.
Qed.

Lemma loop_body_union (usernames : gset string) item :
  loop_body usernames item = loop_body ∅ item ∪ usernames.
Proof.
  unfold loop_body.
  destruct (first_value (dict_get item "string_list_data")).
  - unfold set_add. rewrite (right_id_L ∅ (∪)). reflexivity.
  - apply flat_fields_union.
Qed.

Lemma elem_of_fold_loop_body candidates (usernames : gset string) x :
  x ∈ fold_left loop_body candidates usernames <->
  x ∈ usernames \/ exists item, In item candidates /\ x ∈ loop_body ∅ item.
Proof.
  revert usernames. induction candidates as [|item candidates IH];
    intros usernames; simpl.
  - split; [auto|]. intros [H|(item & [] & _)]. exact H.
  - rewrite IH, loop_body_union, elem_of_union. split.
    + intros [[H|H]|(item' & Hin & H)]; eauto.
    + intros [H|(item' & [<-|Hin] & H)]; eauto.
Qed.

Lemma size_fold_loop_body candidates (usernames : gset string) :
  size (fold_left loop_body candidates usernames)
  <= size usernames + length candidates.
Proof.
  revert usernames. induction candidates as [|item candidates IH];
    intros usernames; simpl; [lia|].
  etransitivity; [apply IH|].
  destruct (loop_body_cases usernames item) as [->|(s & _ & ->)]; [lia|].
  unfold set_add. rewrite size_union_alt, size_singleton.
  assert (size (usernames ∖ {[_normalize_username s]}) <= size usernames)
    by (apply subseteq_size, subseteq_difference_l; reflexivity).
  lia.
Qed.

(** X7: the loaded set is the union of what each candidate record adds on
    its own.  For a list-shaped document, joining two lists of records
    gives the union of their sets, and reordering the records changes
    nothing. *)
Theorem usernames_of_union :
  (forall (data : json) (x : string),
     x ∈ usernames_of data <->
     exists item, In item (_extract_candidates data) /\ x ∈ loop_body ∅ item) /\
  (forall items1 items2 : list json,
     usernames_of (JList (items1 ++ items2))
     = usernames_of (JList items1) ∪ usernames_of (JList items2)) /\
  (forall items1 items2 : list json,
     items1 ≡ₚ items2 ->
     usernames_of (JList items1) = usernames_of (JList items2)).
Proof.
  assert (Hin : forall data x,
     x ∈ usernames_of data <->
     exists item, In item (_extract_candidates data) /\ x ∈ loop_body ∅ item).
  { intros data x. unfold usernames_of. rewrite elem_of_fold_loop_body.
    split; [|auto]. intros [H|H]; [|exact H]. apply not_elem_of_empty in H as []. }
  split; [exact Hin|]. split.
  - intros items1 items2. apply set_eq. intros x.
    rewrite elem_of_union, !Hin. cbn [_extract_candidates]. split.
    + intros (item & H & Hx). apply in_only_dicts, in_app_or in H as [H|H];
        [left|right]; exists item; split; auto; apply in_only_dicts, H.
    + intros [(item & H & Hx)|(item & H & Hx)]; exists item; split; auto;
        apply in_only_dicts, in_or_app; apply in_only_dicts in H; auto.
  - intros items1 items2 Hperm. apply set_eq. intros x.
    rewrite !Hin. cbn [_extract_candidates].
    split; intros (item & H & Hx); exists item; split; auto;
      apply in_only_dicts; apply in_only_dicts in H;
      apply list_elem_of_In; apply list_elem_of_In in H.
    + rewrite <- Hperm. exact H.
    + rewrite Hperm. exact H.
Qed.

Lemma usernames_of_union_witness :
  usernames_of (JList [JDict [("username", JStr "a")];
                       JDict [("username", JStr "b")]])
  = usernames_of (JList [JDict [("username", JStr "b")];
                         JDict [("username", JStr "a")]]).
Proof. apply usernames_of_union. apply perm_swap. Defined.

(** X8: the loaded set has at most one username per candidate record. *)
Theorem usernames_of_size :
  forall data : json,
    size (usernames_of data) <= length (_extract_candidates data).
Proof.
  intros data. unfold usernames_of.
  etransitivity; [apply size_fold_loop_body|]. rewrite size_empty. lia.
Qed.

(** X9: every loaded username is the normalised form of a string with
    non-empty trimmed content; it does not start with '@', does not end
    with whitespace and is its own lowercase form. *)
Theorem usernames_of_canonical :
  forall (data : json) (x : string),
    x ∈ usernames_of data ->
    (exists s, strip s <> "" /\ x = _normalize_username s) /\
    head_is is_at x = false /\ last_is isspace x = false /\ lower x = x.
Proof.
  intros data x Hx. unfold usernames_of in Hx.
  apply elem_of_fold_loop_body in Hx as [Hx|(item & _ & Hx)];
    [apply not_elem_of_empty in Hx as []|].
  destruct (loop_body_cases ∅ item) as [E|(s & Hs & E)]; rewrite E in Hx;
    [apply not_elem_of_empty in Hx as []|].
  unfold set_add in Hx. rewrite (right_id_L ∅ (∪)) in Hx.
  apply elem_of_singleton in Hx as ->.
  destruct (normalize_ends s) as [Hl Ha].
  split; [exists s; auto|]. split; [exact Ha|]. split; [exact Hl|].
  unfold _normalize_username. apply lower_idem.
Qed.

Lemma usernames_of_canonical_witness :
  exists s, strip s <> "" /\ "alice" = _normalize_username s.
Proof.
  refine (proj1 (usernames_of_canonical Sample.following_doc "alice" _)).
  vm_compute. reflexivity.
Defined.

End Loader.

(** ** The difference, continued *)

Section DifferMore.

Lemma length_not_following_back (following followers : gset string) :
  length (not_following_back following followers)
  = size (following ∖ followers).
Proof.
  unfold not_following_back. rewrite (Permutation_length (sorted_perm _)).
  reflexivity.
Qed.

(** X10: the report has as many rows as following has elements outside
    followers, never more rows than following has elements, and it is
    empty exactly when every followed account follows back. *)
Theorem not_following_back_rows :
  forall following followers : gset string,
    length (not_following_back following followers)
    = size (following ∖ followers) /\
    length (not_following_back following followers) <= size following /\
    (not_following_back following followers = [] <-> following ⊆ followers).
Proof.
  intros following followers.
  pose proof (length_not_following_back following followers) as L.
  split; [exact L|]. split.
  - rewrite L. apply subseteq_size, subseteq_difference_l. reflexivity.
  - split.
    + intros E. rewrite E in L. symmetry in L.
      apply size_empty_iff in L. intros x Hx.
      destruct (decide (x ∈ followers)) as [|Hn]; [assumption|].
      exfalso. apply (not_elem_of_empty (C := gset string) x).
      rewrite <- (leibniz_equiv _ _ L). apply elem_of_difference. auto.
    + intros Hsub. apply length_zero_iff_nil. rewrite L.
      apply size_empty_iff. intros x. rewrite elem_of_difference.
      split; [intros [H1 H2]; destruct (H2 (Hsub x H1))|].
      intros H. apply not_elem_of_empty in H as [].
Qed.

Lemma not_following_back_rows_witness :
  not_following_back {[ "a"; "b" ]} {[ "b"; "a"; "z" ]} = [].
Proof.
  apply not_following_back_rows. intros x.
  rewrite !elem_of_union, !elem_of_singleton. tauto.
Defined.

End DifferMore.

(** ** Runs of the program *)

Section Runs.
Variable json_loads : string -> option json.
Variable csv_writerow : list string -> string.

Lemma print_rows rows w :
  fold_left (fun w u => print (PUsername u) w) rows w
  = World (files w) (stdout w ++ map PUsername rows).
Proof.
  revert w. induction rows as [|u rows IH]; intros [fs out]; simpl.
  - rewrite app_nil_r. reflexivity.
  - rewrite IH. simpl. rewrite <- app_assoc. reflexivity.
Qed.

Lemma load_usernames_same_file w1 w2 path :
  files w1 !! path = files w2 !! path ->
  load_usernames json_loads w1 path = load_usernames json_loads w2 path.
Proof. intros H. unfold load_usernames. rewrite H. reflexivity. Qed.

Lemma load_usernames_not_missing w path text e :
  files w !! path = Some text ->
  load_usernames json_loads w path = Raise e -> e = JSONDecodeError.
Proof.
  intros H. unfold load_usernames. rewrite H.
  destruct (json_loads text); congruence.
Qed.

(** The run when both files are there and load. *)
Lemma main_loaded w followers_text following_text followers following :
  files w !! DEFAULT_FOLLOWERS_FILE = Some followers_text ->
  files w !! DEFAULT_FOLLOWING_FILE = Some following_text ->
  load_usernames json_loads w DEFAULT_FOLLOWERS_FILE = Return followers ->
  load_usernames json_loads w DEFAULT_FOLLOWING_FILE = Return following ->
  main json_loads csv_writerow w
  = (Return tt,
     World (<[OUTPUT_FILE :=
               csv_text csv_writerow (not_following_back following followers)]>
              (files w))
           (stdout w
            ++ [PFollowing (size following); PFollowers (size followers);
                PNotFollowingBack (size (following ∖ followers))]
            ++ map PUsername (not_following_back following followers)
            ++ [PSaved OUTPUT_FILE])).
Proof.
  intros Hf1 Hf2 L1 L2. unfold main.
  rewrite (exists_true _ _ _ Hf1), (exists_true _ _ _ Hf2). cbn [negb].
  rewrite L1, L2. cbv zeta. rewrite print_rows, length_not_following_back.
  unfold write_csv, print. cbn [files stdout].
  rewrite <- !app_assoc. reflexivity.
Qed.

(** The run in every other case: the world stays as it is. *)
Lemma main_raises w e w' :
  main json_loads csv_writerow w = (Raise e, w') -> w' = w.
Proof.
  unfold main.
  destruct (exists_ w DEFAULT_FOLLOWERS_FILE); cbn [negb]; [|congruence].
  destruct (exists_ w DEFAULT_FOLLOWING_FILE); cbn [negb]; [|congruence].
  destruct (load_usernames json_loads w DEFAULT_FOLLOWERS_FILE); [|congruence].
  destruct (load_usernames json_loads w DEFAULT_FOLLOWING_FILE); congruence.
Qed.

Lemma exists_inv w path :
  exists_ w path = true -> exists text, files w !! path = Some text.
Proof.
  unfold exists_. intros H. apply bool_decide_eq_true in H as [text H].
  exists text. exact H.
Qed.

Lemma main_returns w w' :
  main json_loads csv_writerow w = (Return tt, w') ->
  exists followers_text following_text followers following,
    files w !! DEFAULT_FOLLOWERS_FILE = Some followers_text /\
    files w !! DEFAULT_FOLLOWING_FILE = Some following_text /\
    load_usernames json_loads w DEFAULT_FOLLOWERS_FILE = Return followers /\
    load_usernames json_loads w DEFAULT_FOLLOWING_FILE = Return following.
Proof.
  unfold main.
  destruct (exists_ w DEFAULT_FOLLOWERS_FILE) eqn:E1; cbn [negb]; [|congruence].
  destruct (exists_ w DEFAULT_FOLLOWING_FILE) eqn:E2; cbn [negb]; [|congruence].
  apply exists_inv in E1 as [t1 E1]. apply exists_inv in E2 as [t2 E2].
  destruct (load_usernames json_loads w DEFAULT_FOLLOWERS_FILE)
    as [followers|] eqn:L1; [|congruence].
  destruct (load_usernames json_loads w DEFAULT_FOLLOWING_FILE)
    as [following|] eqn:L2; [|congruence].
  intros _. exists t1, t2, followers, following. auto.
Qed.

Lemma load_usernames_parsed w path text :
  files w !! path = Some text ->
  load_usernames json_loads w path
  = match json_loads text with
    | Some data => Return (usernames_of data)
    | None => Raise JSONDecodeError
    end.
Proof. intros H. unfold load_usernames. rewrite H. reflexivity. Qed.





(** X15: running the program again changes nothing but the printed text:
    the second run ends as the first did and leaves the same files. *)
Theorem main_rerun :
  forall w : world,
    let w1 := snd (main json_loads csv_writerow w) in
    fst (main json_loads csv_writerow w1) = fst (main json_loads csv_writerow w) /\
    files (snd (main json_loads csv_writerow w1)) = files w1.
Proof.
  intros w w1. subst w1.
  destruct (main json_loads csv_writerow w) as [[u|e] w'] eqn:E; [destruct u|].
  - destruct (main_returns _ _ E) as (t1 & t2 & G & F & H1 & H2 & L1 & L2).
    pose proof (main_loaded w t1 t2 G F H1 H2 L1 L2) as M.
    rewrite E in M. injection M as ->. cbn [fst snd].
    set (text := csv_text csv_writerow (not_following_back F G)).
    set (w1 := World _ _).
    assert (H1' : files w1 !! DEFAULT_FOLLOWERS_FILE = Some t1)
      by (cbn [w1 files]; rewrite lookup_insert_ne by discriminate; exact H1).
    assert (H2' : files w1 !! DEFAULT_FOLLOWING_FILE = Some t2)
      by (cbn [w1 files]; rewrite lookup_insert_ne by discriminate; exact H2).
    rewrite (main_loaded w1 t1 t2 G F H1' H2').
    + cbn [fst snd files]. split; [reflexivity|]. fold text.
      subst w1. cbn [files]. apply insert_insert_eq.
    + rewrite <- L1. apply load_usernames_same_file. congruence.
    + rewrite <- L2. apply load_usernames_same_file. congruence.
  - apply main_raises in E as Hw. subst w'. cbn [snd]. rewrite E. auto.
Qed.


(** X17: a following document in which the extractor finds no list loads
    as the empty set without any error, and the run then reports nobody:
    the output file holds the header row alone. *)
Theorem unrecognised_following_reports_nobody :
  (forall data : json, unrecognised data = true -> usernames_of data = ∅) /\
  (forall (w : world) (followers_text following_text : string)
          (followers_doc following_doc : json),
     files w !! DEFAULT_FOLLOWERS_FILE = Some followers_text ->
     files w !! DEFAULT_FOLLOWING_FILE = Some following_text ->
     json_loads followers_text = Some followers_doc ->
     json_loads following_text = Some following_doc ->
     unrecognised following_doc = true ->
     main json_loads csv_writerow w
     = (Return tt,
        World (<[OUTPUT_FILE := csv_writerow ["username"]]> (files w))
              (stdout w
               ++ [PFollowing 0; PFollowers (size (usernames_of followers_doc));
                   PNotFollowingBack 0; PSaved OUTPUT_FILE]))).
Proof.
  assert (Hempty : forall data, unrecognised data = true -> usernames_of data = ∅).
  { intros data H. unfold usernames_of. rewrite (extract_unrecognised _ H).
    reflexivity. }
  split; [exact Hempty|].
  intros w t1 t2 d1 d2 Hf1 Hf2 Hd1 Hd2 Hu.
  rewrite (main_loaded w t1 t2 (usernames_of d1) ∅ Hf1 Hf2).
  - assert (D : (∅ : gset string) ∖ usernames_of d1 = ∅)
      by (apply set_eq; intros x; rewrite elem_of_difference;
          split; [intros [H _]; exact H|intros H; apply not_elem_of_empty in H as []]).
    unfold not_following_back. rewrite D, elements_empty, size_empty.
    reflexivity.
  - rewrite (load_usernames_parsed _ _ _ Hf1), Hd1. reflexivity.
  - rewrite (load_usernames_parsed _ _ _ Hf2), Hd2, (Hempty _ Hu). reflexivity.
Qed.

End Runs.





Lemma unrecognised_following_reports_nobody_witness :
  let w := World (<[DEFAULT_FOLLOWING_FILE := Sample.text "{'version': 2}"]>
                    {[ DEFAULT_FOLLOWERS_FILE := Sample.followers_json ]}) [] in
  files (snd (main Sample.loads Sample.writerow w)) !! OUTPUT_FILE
  = Some (Sample.writerow ["username"]).
Proof.
  intros w.
  rewrite (proj2 (unrecognised_following_reports_nobody
                    Sample.loads Sample.writerow) w
             Sample.followers_json (Sample.text "{'version': 2}")
             Sample.followers_doc (JDict [("version", JInt 2)]));
    vm_compute; reflexivity.
Defined.

